(** * Support agent system: gating, guardrail and session model

    A shallow embedding of [main.py]: the shared context, the three
    function tools with their [is_enabled] predicates, the no-apology
    output guardrail, the four support agents, and the interactive loop of
    [main] that resets the context and starts one run per message. *)

From Stdlib Require Import String Ascii List Bool Arith Lia.
Import ListNotations.
Open Scope string_scope.

(** ** Section 2 of the source: pydantic models *)

Record AgentResponse := mkAgentResponse { response : string }.

Record SupportContext := mkSupportContext {
  name : string;
  is_premium_user : bool;
  issue_type : option string
}.

(** [SupportContext(name=..., is_premium_user=...)]: the constructor call
    of [main]; [issue_type] takes its declared default, [None]. *)
Definition SupportContext_new (n : string) (premium : bool) : SupportContext :=
  {| name := n; is_premium_user := premium; issue_type := None |}.

(** Attribute assignment [ctx.issue_type = v]. *)
Definition set_issue_type (v : option string) (ctx : SupportContext) : SupportContext :=
  {| name := name ctx; is_premium_user := is_premium_user ctx; issue_type := v |}.

Record ApologyCheckOutput := mkApologyCheckOutput {
  has_apology : bool;
  reasoning : string
}.

(** ** Code that receives the context object

    The context is one Python object handed by reference to tools,
    guardrails and predicates.  Code that receives it is written in a state
    monad over [SupportContext], so that a write, if there were one, would
    be visible to everything that runs afterwards. *)

Definition Ctx (A : Type) : Type := SupportContext -> A * SupportContext.

Definition ret {A} (a : A) : Ctx A := fun ctx => (a, ctx).

Definition bind {A B} (m : Ctx A) (k : A -> Ctx B) : Ctx B :=
  fun ctx => let (a, ctx') := m ctx in k a ctx'.

Definition get_ctx : Ctx SupportContext := fun ctx => (ctx, ctx).

Notation "x <- m ;; k" := (bind m (fun x => k))
  (at level 61, m at next level, right associativity).

Fixpoint mapM {A B} (f : A -> Ctx B) (l : list A) : Ctx (list B) :=
  match l with
  | [] => ret []
  | a :: l' => b <- f a ;; bs <- mapM f l' ;; ret (b :: bs)
  end.

(** ** Section 4 of the source: tools with conditional availability *)

Record ToolResult := mkToolResult { message : string }.

(** A decorated function together with the [is_enabled] attribute assigned
    right after its definition.  The attribute is a lambda over the
    context: an expression, which cannot assign. *)
Record FunctionTool := mkFunctionTool {
  tool_name : string;
  on_invoke : Ctx ToolResult;
  is_enabled : SupportContext -> bool
}.

Definition refund : FunctionTool :=
  {| tool_name := "refund";
     on_invoke :=
       ctx <- get_ctx ;;
       ret {| message := "✅ Refund for " ++ name ctx
                         ++ " initiated; expect 3–5 business days." |};
     is_enabled := fun ctx => is_premium_user ctx |}.

(** [ctx.issue_type == "technical"]: [None] compares unequal to any
    string. *)
Definition restart_service : FunctionTool :=
  {| tool_name := "restart_service";
     on_invoke :=
       ctx <- get_ctx ;;
       ret {| message := "✅ Service for " ++ name ctx
                         ++ " restarted successfully." |};
     is_enabled := fun ctx =>
       match issue_type ctx with
       | Some s => String.eqb s "technical"
       | None => false
       end |}.

Definition general_info : FunctionTool :=
  {| tool_name := "general_info";
     on_invoke :=
       _ <- get_ctx ;;
       ret {| message := "🛈 How else can I assist—billing, technical, or general?" |};
     is_enabled := fun _ => true |}.

(** ** Strings as the program uses them *)

(** [str.lower] on the ASCII letters.  The program lowers a string only
    to compare it with ["exit"] and ["quit"] or to test whether it starts
    with ["y"]; no character outside ASCII lowers to one of those letters,
    so these tests come out as in Python. *)
Definition lower_ascii (c : ascii) : ascii :=
  let n := nat_of_ascii c in
  if ((65 <=? n) && (n <=? 90))%nat then ascii_of_nat (n + 32)%nat else c.

Fixpoint lower (s : string) : string :=
  match s with
  | EmptyString => EmptyString
  | String c s' => String (lower_ascii c) (lower s')
  end.

(** The name under which a handoff is offered to the model: the agent's
    name in lower case with blanks turned into underscores, after
    [transfer_to_], as spelled out in the triage instructions. *)
Fixpoint snake (s : string) : string :=
  match s with
  | EmptyString => EmptyString
  | String c s' =>
      String (if Ascii.eqb c " "%char then "_"%char else lower_ascii c) (snake s')
  end.

(** [str.strip()]: white space is removed at both ends.  Strings are
    UTF-8 byte strings here, so the white space of Python (the characters
    for which [str.isspace] holds) is listed by its encodings: the ASCII
    controls 9 to 13 and 28 to 31 and the blank, then U+0085, U+00A0,
    U+1680, U+2000 to U+200A, U+2028, U+2029, U+202F, U+205F and
    U+3000. *)
Definition bytes (codes : list nat) : string :=
  fold_right (fun n s => String (ascii_of_nat n) s) EmptyString codes.

Definition whitespace : list string :=
  map bytes
    [[9]; [10]; [11]; [12]; [13]; [28]; [29]; [30]; [31]; [32];
     [194; 133]; [194; 160]; [225; 154; 128];
     [226; 128; 128]; [226; 128; 129]; [226; 128; 130]; [226; 128; 131];
     [226; 128; 132]; [226; 128; 133]; [226; 128; 134]; [226; 128; 135];
     [226; 128; 136]; [226; 128; 137]; [226; 128; 138];
     [226; 128; 168]; [226; 128; 169]; [226; 128; 175];
     [226; 129; 159]; [227; 128; 128]]%nat.

(** [s] without the leading [w], when it starts with it. *)
Fixpoint drop_prefix (w s : string) : option string :=
  match w with
  | EmptyString => Some s
  | String c w' =>
      match s with
      | EmptyString => None
      | String d s' => if Ascii.eqb c d then drop_prefix w' s' else None
      end
  end.

Fixpoint drop_first (ws : list string) (s : string) : option string :=
  match ws with
  | [] => None
  | w :: ws' =>
      match drop_prefix w s with
      | Some s' => Some s'
      | None => drop_first ws' s
      end
  end.

(** Leading members of [ws] are dropped one after the other; each drop
    shortens the string, so its length is fuel enough. *)
Fixpoint lstrip_with (ws : list string) (fuel : nat) (s : string) : string :=
  match fuel with
  | O => s
  | S fuel' =>
      match drop_first ws s with
      | Some s' => lstrip_with ws fuel' s'
      | None => s
      end
  end.

Fixpoint string_rev (s : string) : string :=
  match s with
  | EmptyString => EmptyString
  | String c s' => string_rev s' ++ String c EmptyString
  end.

Definition lstrip (s : string) : string :=
  lstrip_with whitespace (String.length s) s.

Definition rstrip (s : string) : string :=
  string_rev (lstrip_with (map string_rev whitespace) (String.length s) (string_rev s)).

Definition strip (s : string) : string := rstrip (lstrip s).

(** A string of [n] blanks. *)
Fixpoint blanks (n : nat) : string :=
  match n with
  | O => EmptyString
  | S k => String " " (blanks k)
  end.

(** ** Section 3 of the source: the output guardrail *)

(** The dictionary returned by a guardrail function. *)
Record GuardrailFunctionOutput := mkGuardrailFunctionOutput {
  output_info : ApologyCheckOutput;
  tripwire_triggered : bool
}.

(** The verdict in the design's vocabulary. *)
Definition passed (v : GuardrailFunctionOutput) : bool := negb (tripwire_triggered v).

(** A guardrail function [(ctx, agent, output)]; the agent is passed by
    name, the context through the monad. *)
Definition OutputGuardrail : Type :=
  string -> AgentResponse -> Ctx GuardrailFunctionOutput.

(** An [Agent(...)] object.  [tools] is never given in the source, so it
    keeps its default, the empty list; [handoffs] is given for the triage
    agent only. *)
#[local] Unset Elimination Schemes.
Inductive Agent := mkAgent {
  agent_name : string;
  instructions : string;
  tools : list FunctionTool;
  output_guardrails : list OutputGuardrail;
  handoffs : list Agent
}.
#[local] Set Elimination Schemes.

Definition handoff_tool_name (a : Agent) : string :=
  "transfer_to_" ++ snake (agent_name a).

(** What the model answers at one turn of a run: a call by name (of a
    handoff or of a function tool) or a final structured output. *)
Inductive ProviderMove :=
| Call (callee : string)
| FinalOutput (text : string).

(** One request sent to the model on behalf of an agent: who asks, with
    which instructions, on which input, the context at that instant, and
    the tools and handoffs it may call. *)
Record Invocation := mkInvocation {
  inv_agent : string;
  inv_instructions : string;
  inv_input : string;
  inv_context : SupportContext;
  inv_tools : list string;
  inv_handoffs : list string
}.

Inductive RunOutcome :=
| Completed (by_agent : string) (final_output : AgentResponse)
| OutputGuardrailTripwireTriggered (by_agent : string) (candidate : AgentResponse)
| ModelBehaviorError (callee : string)
| NoReply.

Record RunResult := mkRunResult {
  outcome : RunOutcome;
  invocations : list Invocation;
  tool_calls : list (string * ToolResult);
  guardrail_results : list GuardrailFunctionOutput;
  context_after : SupportContext
}.

(** [RunConfig(stream=True)]: the only setting the program passes. *)
Record RunConfig := mkRunConfig { stream : bool }.

(** ** The run started by [runner.run_streamed]

    The loop itself belongs to the imported [agents] runtime, which is not
    part of the program.  It is written here as far as the program's own
    objects decide it.  At each turn the current agent is offered the
    tools it was built with, gated by [is_enabled] on the context at that
    instant; no agent of the program is built with tools, and the list
    passed as [tools=] to the run is attached to none of them.  A call
    naming a handoff of the current agent makes the target the current
    agent; a call naming an offered tool runs its handler on the context;
    any other call is an error of the model.  A final output is handed to
    every output guardrail of the agent that produced it.

    What is left to the runtime is idealised: the keyword arguments of the
    calls in [main] are taken as accepted, the verdict a guardrail returns
    is read by its [tripwire_triggered] entry (a triggered tripwire ends
    the run instead of completing it), and the events the run streams and
    [main] prints are not represented.  The replies of the model are the
    [script]; a run whose script is used up got no further reply. *)

(** The gate: the tools whose predicate holds on the context as it is
    now.  Nothing is remembered from one evaluation to the next. *)
Definition gated_view (ctx : SupportContext) (ts : list FunctionTool) : list FunctionTool :=
  filter (fun t => is_enabled t ctx) ts.

Definition find_handoff (callee : string) (hs : list Agent) : option Agent :=
  find (fun a => String.eqb (handoff_tool_name a) callee) hs.

Definition find_tool (callee : string) (ts : list FunctionTool) : option FunctionTool :=
  find (fun t => String.eqb (tool_name t) callee) ts.

Definition run_output_guardrails (a : Agent) (out : AgentResponse)
  : Ctx (list GuardrailFunctionOutput) :=
  mapM (fun g => g (agent_name a) out) (output_guardrails a).

Definition invocation_of (input : string) (a : Agent) (ctx : SupportContext)
  : Invocation :=
  {| inv_agent := agent_name a;
     inv_instructions := instructions a;
     inv_input := input;
     inv_context := ctx;
     inv_tools := map tool_name (gated_view ctx (tools a));
     inv_handoffs := map handoff_tool_name (handoffs a) |}.

Definition stopped (o : RunOutcome) (inv : Invocation) (ctx : SupportContext) : RunResult :=
  {| outcome := o; invocations := [inv]; tool_calls := [];
     guardrail_results := []; context_after := ctx |}.

Definition after_turn (inv : Invocation) (called : list (string * ToolResult))
    (r : RunResult) : RunResult :=
  {| outcome := outcome r;
     invocations := inv :: invocations r;
     tool_calls := called ++ tool_calls r;
     guardrail_results := guardrail_results r;
     context_after := context_after r |}.

(** [run_tools] is the list passed as [tools=]: it is carried along and
    reaches no agent. *)
Fixpoint run_loop (run_tools : list FunctionTool) (input : string) (cur : Agent)
    (script : list ProviderMove) (ctx : SupportContext) : RunResult :=
  let inv := invocation_of input cur ctx in
  match script with
  | [] => stopped NoReply inv ctx
  | Call callee :: rest =>
      match find_handoff callee (handoffs cur) with
      | Some next => after_turn inv [] (run_loop run_tools input next rest ctx)
      | None =>
          match find_tool callee (gated_view ctx (tools cur)) with
          | Some t =>
              let (res, ctx') := on_invoke t ctx in
              after_turn inv [(callee, res)] (run_loop run_tools input cur rest ctx')
          | None => stopped (ModelBehaviorError callee) inv ctx
          end
      end
  | FinalOutput text :: _ =>
      let out := {| response := text |} in
      let (verdicts, ctx') := run_output_guardrails cur out ctx in
      {| outcome :=
           if existsb tripwire_triggered verdicts
           then OutputGuardrailTripwireTriggered (agent_name cur) out
           else Completed (agent_name cur) out;
         invocations := [inv];
         tool_calls := [];
         guardrail_results := verdicts;
         context_after := ctx' |}
  end.

(** [runner.run_streamed(agent=..., input=..., context=..., config=...,
    tools=...)]: the context is the caller's object, so what the run left
    in it is what the caller holds afterwards. *)
Definition run_streamed (agent : Agent) (input : string) (config : RunConfig)
    (run_tools : list FunctionTool) (script : list ProviderMove) : Ctx RunResult :=
  fun ctx =>
    let r := run_loop run_tools input agent script ctx in
    (r, context_after r).

(** ** Sample inputs *)

Definition never_apology : string -> string -> SupportContext -> ApologyCheckOutput :=
  fun _ _ _ => {| has_apology := false; reasoning := "no apology found" |}.

Definition ana : SupportContext := SupportContext_new "Ana" true.
Definition bo : SupportContext := SupportContext_new "Bo" false.

Definition billing_script : list ProviderMove :=
  [Call "transfer_to_billing_agent"; FinalOutput "Your invoice is attached."].


Section System.

(** The model behind the apology guardrail agent: the structured
    [ApologyCheckOutput] it returns for given instructions, input text and
    context.  It is an external service; everything below holds for any
    behaviour of it. *)
Variable apology_model : string -> string -> SupportContext -> ApologyCheckOutput.

Definition apology_guardrail_agent : Agent :=
  {| agent_name := "Apology Guardrail";
     instructions :=
       "Inspect the given text and determine if it contains any apology "
       ++ "language (the word 'sorry'). Return JSON with keys:" ++ String "010" ""
       ++ "- has_apology: true if any apology found, else false" ++ String "010" ""
       ++ "- reasoning: brief justification.";
     tools := [];
     output_guardrails := [];
     handoffs := [] |}.

(** [Runner.run(apology_guardrail_agent, text, context=ctx.context)]
    followed by [.final_output]: the agent has no tools, handoffs or
    guardrails, so no code of the program runs inside and the context
    comes back as it went in. *)
Definition run_apology_check (text : string) : Ctx ApologyCheckOutput :=
  ctx <- get_ctx ;;
  ret (apology_model (instructions apology_guardrail_agent) text ctx).

Definition no_apology_guardrail : OutputGuardrail :=
  fun _agent output =>
    result <- run_apology_check (response output) ;;
    ret {| output_info := result;
           tripwire_triggered := has_apology result |}.

(** ** Section 5 and 6 of the source: the agents *)

Definition billing_agent : Agent :=
  {| agent_name := "Billing Agent";
     instructions := "You are the Billing Specialist. Handle refunds, invoices, subscriptions.";
     tools := [];
     output_guardrails := [no_apology_guardrail];
     handoffs := [] |}.

Definition technical_agent : Agent :=
  {| agent_name := "Technical Agent";
     instructions := "You are the Technical Specialist. Assist with restarts, connectivity, errors.";
     tools := [];
     output_guardrails := [no_apology_guardrail];
     handoffs := [] |}.

Definition general_agent : Agent :=
  {| agent_name := "General Agent";
     instructions := "You are the General Support Agent. Answer any general inquiries.";
     tools := [];
     output_guardrails := [no_apology_guardrail];
     handoffs := [] |}.

Definition triage_agent : Agent :=
  {| agent_name := "Triage Agent";
     instructions :=
       "You are the FIRST POINT OF CONTACT. Classify the user’s issue as billing, technical, "
       ++ "or general, then delegate by calling exactly one of:" ++ String "010" ""
       ++ "  • transfer_to_billing_agent" ++ String "010" ""
       ++ "  • transfer_to_technical_agent" ++ String "010" ""
       ++ "  • transfer_to_general_agent";
     tools := [];
     output_guardrails := [no_apology_guardrail];
     handoffs := [billing_agent; technical_agent; general_agent] |}.

(** The responders of the system: the triage agent and its three
    specialists. *)
Definition responders : list Agent :=
  [triage_agent; billing_agent; technical_agent; general_agent].

(** ** Section 7 of the source: the interaction loop *)

(** The list passed as [tools=] at the only call of [run_streamed]. *)
Definition main_tools : list FunctionTool := [refund; restart_service; general_info].

(** [msg.lower() in ("exit", "quit")] *)
Definition is_exit (msg : string) : bool :=
  existsb (String.eqb (lower msg)) ["exit"; "quit"].

Definition assign_issue_type (v : option string) : Ctx unit :=
  fun ctx => (tt, set_issue_type v ctx).

(** The body of the loop for a message that is not [exit] or [quit]:
    the reset, the configuration and the one streamed run.  Printing the
    streamed events touches nothing the program keeps. *)
Definition handle_message (msg : string) (script : list ProviderMove) : Ctx RunResult :=
  _ <- assign_issue_type None ;;
  run_streamed triage_agent msg {| stream := true |} main_tools script.

(** [while True]: each message comes with the replies the model gives
    during its run.  A run that does not complete reaches [main] as an
    exception while the stream is read; [main] has no handler, so the
    session ends there. *)
Fixpoint main_loop (inputs : list (string * list ProviderMove)) : Ctx (list RunResult) :=
  match inputs with
  | [] => ret []
  | (msg, script) :: rest =>
      if is_exit msg then ret []
      else
        result <- handle_message msg script ;;
        match outcome result with
        | Completed _ _ => results <- main_loop rest ;; ret (result :: results)
        | _ => ret [result]
        end
  end.

(** [input(...).lower().startswith("y")] *)
Definition answers_yes (s : string) : bool :=
  match lower s with
  | String "y" _ => true
  | _ => false
  end.

(** [main], from the two answers as typed and the messages (already
    stripped) to the runs of the session and the context it ends with.
    The name is stripped, and [User] stands in for an empty one; the
    premium answer is lowered, not stripped. *)
Definition main (name_answer premium_answer : string)
    (inputs : list (string * list ProviderMove)) : list RunResult * SupportContext :=
  let n := if String.eqb (strip name_answer) "" then "User" else strip name_answer in
  main_loop inputs (SupportContext_new n (answers_yes premium_answer)).

(** ** Values the statements below speak about *)

(** The verdict of the no-apology guardrail on a text, as a value. *)
Definition verdict_on (text : string) (ctx : SupportContext) : GuardrailFunctionOutput :=
  let result := apology_model (instructions apology_guardrail_agent) text ctx in
  {| output_info := result; tripwire_triggered := has_apology result |}.

(** The result of a run that ends with the final output [text] of [cur],
    checked on the unchanged context. *)
Definition final_result (input : string) (cur : Agent) (text : string)
    (ctx : SupportContext) : RunResult :=
  {| outcome :=
       if has_apology (output_info (verdict_on text ctx))
       then OutputGuardrailTripwireTriggered (agent_name cur) {| response := text |}
       else Completed (agent_name cur) {| response := text |};
     invocations := [invocation_of input cur ctx];
     tool_calls := [];
     guardrail_results := [verdict_on text ctx];
     context_after := ctx |}.


(** The three agents the triage agent can hand off to. *)
Definition specialists : list Agent := [billing_agent; technical_agent; general_agent].

(** The agents of the invocations of a run, in order. *)
Definition agents_of (r : RunResult) : list string := map inv_agent (invocations r).

(** Routing in one direction: some turns of the triage agent, then turns
    of one specialist only. *)
Definition one_way (names : list string) : Prop :=
  exists k m a,
    In a specialists
    /\ names = (repeat (agent_name triage_agent) (S k) ++ repeat (agent_name a) m)%list.

(** The name [main] builds the context with, from the name as typed. *)
Definition session_name (name_answer : string) : string :=
  if String.eqb (strip name_answer) "" then "User" else strip name_answer.

(** * Properties *)

(** ** What the program's callbacks do to the context *)

Lemma no_apology_guardrail_eq (a : string) (out : AgentResponse) (ctx : SupportContext) :
  no_apology_guardrail a out ctx = (verdict_on (response out) ctx, ctx).
Proof. reflexivity. Qed.

Lemma responders_guardrails (a : Agent) :
  In a responders -> output_guardrails a = [no_apology_guardrail].
Proof.
  intros [<- | [<- | [<- | [<- | []]]]]; reflexivity.
Qed.

Lemma responders_tools (a : Agent) : In a responders -> tools a = [].
Proof.
  intros [<- | [<- | [<- | [<- | []]]]]; reflexivity.
Qed.

Lemma responders_closed (a next : Agent) (callee : string) :
  In a responders ->
  find_handoff callee (handoffs a) = Some next ->
  In next responders.
Proof.
  intros Ha Hfind.
  apply find_some in Hfind as [Hin _].
  destruct Ha as [<- | [<- | [<- | [<- | []]]]]; cbn [handoffs triage_agent] in Hin;
    try contradiction.
  unfold responders. simpl in Hin |- *. tauto.
Qed.

Lemma validate_responder (a : Agent) (out : AgentResponse) (ctx : SupportContext) :
  In a responders ->
  run_output_guardrails a out ctx = ([verdict_on (response out) ctx], ctx).
Proof.
  intros Ha. unfold run_output_guardrails.
  rewrite (responders_guardrails a Ha). reflexivity.
Qed.

(** ** The shape of a run of the system

    A run that starts at a responder stays among the responders, runs no
    handler and never changes the context.  The principle below packages
    this: a property of such runs follows from its four cases, each stated
    with the context fixed. *)

Section RunInduction.

Variable input : string.
Variable ctx : SupportContext.
Variable P : Agent -> list ProviderMove -> RunResult -> Prop.

Hypothesis P_no_reply : forall cur,
  In cur responders -> P cur [] (stopped NoReply (invocation_of input cur ctx) ctx).

Hypothesis P_handoff : forall cur callee rest next,
  In cur responders ->
  find_handoff callee (handoffs cur) = Some next ->
  In next responders ->
  P next rest (run_loop main_tools input next rest ctx) ->
  P cur (Call callee :: rest)
    (after_turn (invocation_of input cur ctx) [] (run_loop main_tools input next rest ctx)).

Hypothesis P_unknown : forall cur callee rest,
  In cur responders ->
  find_handoff callee (handoffs cur) = None ->
  P cur (Call callee :: rest)
    (stopped (ModelBehaviorError callee) (invocation_of input cur ctx) ctx).

Hypothesis P_final : forall cur text rest,
  In cur responders ->
  P cur (FinalOutput text :: rest) (final_result input cur text ctx).

Lemma system_run_ind : forall script cur,
  In cur responders -> P cur script (run_loop main_tools input cur script ctx).
Proof.
  induction script as [| mv rest IH]; intros cur Hcur.
  - apply P_no_reply; assumption.
  - destruct mv as [callee | text]; cbn [run_loop].
    + destruct (find_handoff callee (handoffs cur)) as [next |] eqn:Hh.
      * apply P_handoff; eauto using responders_closed.
      * rewrite (responders_tools cur Hcur).
        change (find_tool callee (gated_view ctx [])) with (@None FunctionTool).
        apply P_unknown; assumption.
    + rewrite (validate_responder cur _ ctx Hcur).
      cbn [existsb response]. rewrite orb_false_r.
      apply P_final; assumption.
Qed.

End RunInduction.

(** ** Consequences for every run of the system *)

(** Every invocation is the one of a responder on the context the run
    started with. *)
Lemma run_invocations (input : string) (ctx : SupportContext)
    (script : list ProviderMove) (cur : Agent) :
  In cur responders ->
  Forall (fun i => exists a, In a responders /\ i = invocation_of input a ctx)
         (invocations (run_loop main_tools input cur script ctx)).
Proof.
  revert script cur.
  apply (system_run_ind input ctx
           (fun _ _ r => Forall (fun i => exists a, In a responders
                                   /\ i = invocation_of input a ctx)
                                (invocations r)));
    intros; cbn [invocations stopped after_turn final_result];
    repeat constructor; auto; exists cur; auto.
Qed.

(** The context handed back is the one handed in, and every invocation
    saw that same context. *)
Lemma run_context_fixed (input : string) (ctx : SupportContext)
    (script : list ProviderMove) (cur : Agent) :
  In cur responders ->
  context_after (run_loop main_tools input cur script ctx) = ctx /\
  Forall (fun i => inv_context i = ctx)
         (invocations (run_loop main_tools input cur script ctx)).
Proof.
  intros Hcur. split.
  - revert script cur Hcur.
    apply (system_run_ind input ctx (fun _ _ r => context_after r = ctx));
      intros; cbn [context_after stopped after_turn final_result]; auto.
  - eapply Forall_impl; [| apply (run_invocations input ctx script cur Hcur)].
    intros i (a & _ & ->). reflexivity.
Qed.

(** No invocation offers a tool: the responders were built with none. *)
Lemma run_offers_nothing (input : string) (ctx : SupportContext)
    (script : list ProviderMove) (cur : Agent) :
  In cur responders ->
  Forall (fun i => inv_tools i = [])
         (invocations (run_loop main_tools input cur script ctx)).
Proof.
  intros Hcur.
  eapply Forall_impl; [| apply (run_invocations input ctx script cur Hcur)].
  intros i (a & Ha & ->). cbn [inv_tools invocation_of].
  rewrite (responders_tools a Ha). reflexivity.
Qed.

(** No handler is run. *)
Lemma run_calls_nothing (input : string) (ctx : SupportContext)
    (script : list ProviderMove) (cur : Agent) :
  In cur responders ->
  tool_calls (run_loop main_tools input cur script ctx) = [].
Proof.
  revert script cur.
  apply (system_run_ind input ctx (fun _ _ r => tool_calls r = []));
    intros; cbn [tool_calls stopped after_turn final_result app]; auto.
Qed.


Lemma handle_message_eq (msg : string) (script : list ProviderMove) (ctx : SupportContext) :
  handle_message msg script ctx =
  (run_loop main_tools msg triage_agent script (set_issue_type None ctx),
   context_after (run_loop main_tools msg triage_agent script (set_issue_type None ctx))).
Proof. reflexivity. Qed.

Lemma triage_is_responder : In triage_agent responders.
Proof. left; reflexivity. Qed.

(** What a request offers and runs, whatever context it starts from. *)
Lemma request_offers_nothing (msg : string) (script : list ProviderMove)
    (ctx : SupportContext) :
  Forall (fun i => inv_tools i = []) (invocations (fst (handle_message msg script ctx)))
  /\ tool_calls (fst (handle_message msg script ctx)) = [].
Proof.
  rewrite handle_message_eq. cbn [fst]. split.
  - apply run_offers_nothing, triage_is_responder.
  - apply run_calls_nothing, triage_is_responder.
Qed.

(** ** The session *)

Lemma main_loop_spec (inputs : list (string * list ProviderMove)) (ctx : SupportContext) :
  (snd (main_loop inputs ctx) = ctx \/ snd (main_loop inputs ctx) = set_issue_type None ctx)
  /\ Forall (fun r => exists msg script,
                 r = run_loop main_tools msg triage_agent script (set_issue_type None ctx))
            (fst (main_loop inputs ctx)).
Proof.
  revert ctx. induction inputs as [| [msg script] rest IH]; intros ctx; cbn [main_loop].
  - split; [left; reflexivity | constructor].
  - destruct (is_exit msg); [split; [left; reflexivity | constructor] |].
    unfold bind. rewrite handle_message_eq.
    destruct (run_context_fixed msg (set_issue_type None ctx) script triage_agent
                triage_is_responder) as [Hafter _].
    set (r := run_loop main_tools msg triage_agent script (set_issue_type None ctx)) in *.
    assert (Hr : exists m sc, r = run_loop main_tools m triage_agent sc (set_issue_type None ctx))
      by (exists msg, script; reflexivity).
    destruct (outcome r);
      try (cbn [ret fst snd]; split; [right; exact Hafter | repeat constructor; exact Hr]).
    rewrite Hafter.
    specialize (IH (set_issue_type None ctx)).
    destruct (main_loop rest (set_issue_type None ctx)) as [results ctx'].
    cbn [ret fst snd] in *. destruct IH as [Hctx Hruns]. split.
    + right. destruct Hctx as [-> | ->]; reflexivity.
    + constructor; [exact Hr | exact Hruns].
Qed.

(** * The claims *)

(** C2.  The [is_enabled] predicate of [refund] is true exactly when the
    context's [is_premium_user] flag is; and when it is false, no
    invocation of a request (in particular none made for the Billing
    Agent) offers [refund], and the run never executes it. *)
Theorem refund_gate_follows_premium_flag (ctx : SupportContext) (msg : string)
    (script : list ProviderMove) :
  (is_enabled refund ctx = true <-> is_premium_user ctx = true)
  /\ (is_enabled refund ctx = false ->
      let r := fst (handle_message msg script ctx) in
      Forall (fun i => inv_agent i = agent_name billing_agent ->
                       ~ In (tool_name refund) (inv_tools i)) (invocations r)
      /\ Forall (fun i => ~ In (tool_name refund) (inv_tools i)) (invocations r)
      /\ ~ In (tool_name refund) (map fst (tool_calls r))).
Proof.
  split; [reflexivity |].
  intros _ r. subst r.
  destruct (request_offers_nothing msg script ctx) as [Hoffers Hcalls].
  repeat split.
  - eapply Forall_impl; [| exact Hoffers]. intros i -> _ [].
  - eapply Forall_impl; [| exact Hoffers]. intros i -> [].
  - rewrite Hcalls. intros [].
Qed.



(** C5.  The only assignment to [issue_type] is the reset to [None] at the
    head of the loop body.  So in every session of [main], whatever the
    user types and the models answer, the context has [issue_type = None]
    at every invocation, after every run and at the end; the predicate of
    [restart_service] is false there, the tool is never offered and never
    run. *)
Theorem restart_service_is_never_enabled (name_answer premium_answer : string)
    (inputs : list (string * list ProviderMove)) :
  let (runs, ctx_end) := main name_answer premium_answer inputs in
  issue_type ctx_end = None
  /\ is_enabled restart_service ctx_end = false
  /\ Forall (fun r =>
        issue_type (context_after r) = None
        /\ Forall (fun i => issue_type (inv_context i) = None
                            /\ is_enabled restart_service (inv_context i) = false
                            /\ ~ In (tool_name restart_service) (inv_tools i))
                  (invocations r)
        /\ ~ In (tool_name restart_service) (map fst (tool_calls r)))
      runs.
Proof.
  unfold main.
  set (ctx := SupportContext_new _ _).
  destruct (main_loop_spec inputs ctx) as [Hend Hruns].
  destruct (main_loop inputs ctx) as [runs ctx_end]. cbn [fst snd] in *.
  assert (Hnone : issue_type ctx_end = None) by (destruct Hend as [-> | ->]; reflexivity).
  split; [exact Hnone |]. split.
  { cbn [is_enabled restart_service]. rewrite Hnone. reflexivity. }
  eapply Forall_impl; [| exact Hruns].
  intros r (msg & script & ->).
  destruct (run_context_fixed msg (set_issue_type None ctx) script triage_agent
              triage_is_responder) as [Hafter Hctx].
  pose proof (run_offers_nothing msg (set_issue_type None ctx) script triage_agent
                triage_is_responder) as Hoff.
  split; [rewrite Hafter; reflexivity |]. split.
  - rewrite Forall_forall in *. intros i Hi.
    rewrite (Hctx i Hi). repeat split.
    rewrite (Hoff i Hi). intros [].
  - rewrite run_calls_nothing by apply triage_is_responder. intros [].
Qed.

(** C6.  For every candidate answer the guardrail returns one verdict:
    its tripwire is the [has_apology] field of the classifier's output on
    the candidate's text, so the verdict passes exactly when no apology is
    reported; the context is left as it was; and each responder's
    guardrail list yields exactly one verdict per candidate. *)
Theorem tripwire_is_has_apology (agent : string) (output : AgentResponse)
    (ctx : SupportContext) :
  let (verdict, ctx') := no_apology_guardrail agent output ctx in
  output_info verdict
    = apology_model (instructions apology_guardrail_agent) (response output) ctx
  /\ tripwire_triggered verdict = has_apology (output_info verdict)
  /\ passed verdict = negb (has_apology (output_info verdict))
  /\ (passed verdict = true <-> has_apology (output_info verdict) = false)
  /\ ctx' = ctx
  /\ Forall (fun a => fst (run_output_guardrails a output ctx) = [verdict]) responders.
Proof.
  rewrite no_apology_guardrail_eq.
  repeat split; try reflexivity.
  - unfold passed. cbn. destruct (has_apology _); [discriminate | reflexivity].
  - unfold passed. cbn. intros ->. reflexivity.
  - repeat constructor.
Qed.

(** C8.  A request starts by resetting [issue_type] to [None], whatever
    was left in it; the context is that same value at every invocation of
    the request, the triage agent's included, and when the request ends:
    nothing writes the field during the request.  [name] and
    [is_premium_user] come out of the request as they went in. *)
Theorem issue_type_is_reset_per_request (msg : string) (script : list ProviderMove)
    (ctx0 : SupportContext) :
  let (r, ctx') := handle_message msg script ctx0 in
  Forall (fun i => inv_context i = set_issue_type None ctx0
                   /\ issue_type (inv_context i) = None) (invocations r)
  /\ ctx' = set_issue_type None ctx0
  /\ issue_type ctx' = None
  /\ name ctx' = name ctx0
  /\ is_premium_user ctx' = is_premium_user ctx0.
Proof.
  rewrite handle_message_eq.
  destruct (run_context_fixed msg (set_issue_type None ctx0) script triage_agent
              triage_is_responder) as [Hafter Hctx].
  rewrite Hafter. repeat split.
  eapply Forall_impl; [| exact Hctx].
  intros i ->. split; reflexivity.
Qed.

(** C10.  Each of the three handlers returns its payload and leaves the
    context exactly as it found it; in particular [issue_type] and [name]
    are unchanged. *)
Theorem handlers_leave_the_context (ctx : SupportContext) :
  Forall (fun t => let (_, ctx') := on_invoke t ctx in
                   ctx' = ctx
                   /\ issue_type ctx' = issue_type ctx
                   /\ name ctx' = name ctx)
         [refund; restart_service; general_info].
Proof.
  repeat constructor.
Qed.

(** * Further properties of the program *)

(** ** The answers [main] reads *)

Lemma lower_ascii_y (c : ascii) :
  lower_ascii c = "y"%char <-> c = "y"%char \/ c = "Y"%char.
Proof.
  destruct c as [[] [] [] [] [] [] [] []]; vm_compute;
    split; intros H; try discriminate H; auto;
    destruct H as [H | H]; discriminate H.
Qed.

(** X1.  The premium question is answered yes exactly by an answer whose
    first character is [y] or [Y]: the empty answer, or one that starts
    with a blank, leaves the user non-premium. *)
Theorem premium_answer_starts_with_y (s : string) :
  answers_yes s = true <-> exists rest, s = String "y" rest \/ s = String "Y" rest.
Proof.
  unfold answers_yes. destruct s as [| c rest]; cbn [lower].
  - split; [discriminate | intros (r & [H | H]); discriminate H].
  - split.
    + intros H. exists rest.
      assert (Hc : lower_ascii c = "y"%char).
      { destruct (lower_ascii c) as [[] [] [] [] [] [] [] []];
          try discriminate H; reflexivity. }
      apply lower_ascii_y in Hc as [-> | ->]; auto.
    + intros (r & [H | H]); injection H as -> _; reflexivity.
Qed.

Lemma lower_ascii_idem (c : ascii) : lower_ascii (lower_ascii c) = lower_ascii c.
Proof.
  destruct c as [[] [] [] [] [] [] [] []]; vm_compute; reflexivity.
Qed.

Lemma lower_idem (s : string) : lower (lower s) = lower s.
Proof.
  induction s as [| c s IH]; cbn [lower]; [reflexivity |].
  rewrite lower_ascii_idem, IH. reflexivity.
Qed.

Lemma lower_length (s : string) : String.length (lower s) = String.length s.
Proof.
  induction s as [| c s IH]; cbn [lower String.length]; congruence.
Qed.

(** X2.  A message ends the session exactly when it reads [exit] or
    [quit] once lowered: the letter case does not matter, and a message
    with anything around the word (it has four characters) is an ordinary
    request. *)
Theorem exit_words (msg : string) :
  (is_exit msg = true <-> lower msg = "exit" \/ lower msg = "quit")
  /\ is_exit (lower msg) = is_exit msg
  /\ (is_exit msg = true -> String.length msg = 4).
Proof.
  assert (Hiff : forall m, is_exit m = true <-> lower m = "exit" \/ lower m = "quit").
  { intros m. unfold is_exit. cbn [existsb].
    rewrite orb_false_r, orb_true_iff, !String.eqb_eq. apply iff_refl. }
  split; [apply Hiff |]. split.
  - unfold is_exit. rewrite lower_idem. reflexivity.
  - intros H. apply Hiff in H. rewrite <- lower_length.
    destruct H as [-> | ->]; reflexivity.
Qed.

(** ** What the handlers return *)

Lemma append_length (x y : string) :
  String.length (x ++ y) = String.length x + String.length y.
Proof.
  induction x as [| c x IH]; cbn [append String.length]; [reflexivity |].
  rewrite IH. reflexivity.
Qed.

Lemma append_cancel_r (s : string) : forall x y, x ++ s = y ++ s -> x = y.
Proof.
  induction x as [| c x IH]; intros [| d y] H; cbn [append] in H.
  - reflexivity.
  - apply (f_equal String.length) in H. cbn [String.length] in H.
    rewrite append_length in H. lia.
  - apply (f_equal String.length) in H. cbn [String.length] in H.
    rewrite append_length in H. lia.
  - injection H as -> H. f_equal. auto.
Qed.

(** X3.  The payload of [refund] and of [restart_service] is decided by
    the context's [name] and by nothing else: equal names give equal
    messages, different names different ones, and neither handler looks at
    [is_premium_user] or [issue_type], so the handlers do not enforce
    their own availability.  The payload of [general_info] is the same on
    every context. *)
Theorem payloads_depend_on_name_only (ctx1 ctx2 : SupportContext) :
  (fst (on_invoke refund ctx1) = fst (on_invoke refund ctx2) <-> name ctx1 = name ctx2)
  /\ (fst (on_invoke restart_service ctx1) = fst (on_invoke restart_service ctx2)
      <-> name ctx1 = name ctx2)
  /\ fst (on_invoke general_info ctx1) = fst (on_invoke general_info ctx2).
Proof.
  repeat split.
  - cbn. intros H. injection H as H.
    apply append_cancel_r in H. exact H.
  - cbn. intros ->. reflexivity.
  - cbn. intros H. injection H as H.
    apply append_cancel_r in H. exact H.
  - cbn. intros ->. reflexivity.
Qed.

(** ** Every request *)

(** X4.  No tool is ever offered and no handler is ever run.  The three
    tools are passed to the run, but no responder is built with tools, so
    every invocation of every request offers an empty list of tools and
    the request executes none, whatever the context holds and whatever the
    models answer. *)
Theorem no_tool_is_offered_or_run (msg : string) (script : list ProviderMove)
    (ctx0 : SupportContext) :
  let r := fst (handle_message msg script ctx0) in
  Forall (fun a => tools a = []) responders
  /\ Forall (fun i => inv_tools i = []) (invocations r)
  /\ tool_calls r = [].
Proof.
  intros r. subst r. split; [repeat constructor |].
  apply request_offers_nothing.
Qed.

Lemma agents_of_after_turn (inv : Invocation) (called : list (string * ToolResult))
    (r : RunResult) :
  agents_of (after_turn inv called r) = inv_agent inv :: agents_of r.
Proof. reflexivity. Qed.

Lemma specialists_have_no_handoffs (a : Agent) (callee : string) :
  In a specialists -> find_handoff callee (handoffs a) = None.
Proof.
  intros [<- | [<- | [<- | []]]]; reflexivity.
Qed.

Lemma triage_hands_to_specialists (callee : string) (next : Agent) :
  find_handoff callee (handoffs triage_agent) = Some next -> In next specialists.
Proof.
  intros Hfind. apply find_some in Hfind as [Hin _]. exact Hin.
Qed.

Lemma routing_shape (msg : string) (ctx : SupportContext) :
  forall (script : list ProviderMove) (cur : Agent),
  In cur responders ->
  (cur = triage_agent -> one_way (agents_of (run_loop main_tools msg cur script ctx)))
  /\ (In cur specialists ->
      exists m, agents_of (run_loop main_tools msg cur script ctx)
                = repeat (agent_name cur) (S m)).
Proof.
  apply (system_run_ind msg ctx
           (fun cur _ r =>
              (cur = triage_agent -> one_way (agents_of r))
              /\ (In cur specialists ->
                  exists m, agents_of r = repeat (agent_name cur) (S m)))).
  - intros cur _. split.
    + intros ->. exists 0, 0, billing_agent. split; [left |]; reflexivity.
    + intros _. exists 0. reflexivity.
  - intros cur callee rest next _ Hfind _ [_ IH]. split.
    + intros ->. apply triage_hands_to_specialists in Hfind.
      destruct (IH Hfind) as [m Hm].
      exists 0, (S m), next. split; [exact Hfind |].
      rewrite agents_of_after_turn, Hm. reflexivity.
    + intros Hspec. rewrite (specialists_have_no_handoffs cur callee Hspec) in Hfind.
      discriminate Hfind.
  - intros cur callee rest _ _. split.
    + intros ->. exists 0, 0, billing_agent. split; [left |]; reflexivity.
    + intros _. exists 0. reflexivity.
  - intros cur text rest _. split.
    + intros ->. exists 0, 0, billing_agent. split; [left |]; reflexivity.
    + intros _. exists 0. reflexivity.
Qed.

(** X5.  Routing goes one way.  Whatever the models answer, the turns of
    a run are turns of the triage agent followed by turns of a single
    specialist: the specialists have no handoffs, so a run hands off at
    most once and never comes back to the triage agent or moves on to a
    second specialist. *)
Theorem routing_is_one_way (msg : string) (script : list ProviderMove)
    (ctx : SupportContext) :
  one_way (agents_of (run_loop main_tools msg triage_agent script ctx)).
Proof.
  apply (routing_shape msg ctx script triage_agent triage_is_responder).
  reflexivity.
Qed.

(** X7.  A request does not depend on the [issue_type] the context held
    before it: the reset comes first.  Even on a context that arrives with
    [issue_type = "technical"], no invocation of the request offers
    [restart_service] and the run never executes it. *)
Theorem request_ignores_stale_issue_type (msg : string) (script : list ProviderMove)
    (ctx : SupportContext) (v : option string) :
  handle_message msg script (set_issue_type v ctx) = handle_message msg script ctx
  /\ (let r := fst (handle_message msg script (set_issue_type (Some "technical") ctx)) in
      Forall (fun i => ~ In (tool_name restart_service) (inv_tools i)) (invocations r)
      /\ ~ In (tool_name restart_service) (map fst (tool_calls r))).
Proof.
  split; [reflexivity |].
  intros r. subst r.
  destruct (request_offers_nothing msg script (set_issue_type (Some "technical") ctx))
    as [Hoffers Hcalls].
  split.
  - eapply Forall_impl; [| exact Hoffers]. intros i -> [].
  - rewrite Hcalls. intros [].
Qed.

(** ** Every session *)

(** X8.  A message that reads [exit] or [quit] ends the session where it
    stands: it starts no run and does not reset the context, and nothing
    typed after it is ever processed. *)
Theorem exit_ends_the_session (pre rest : list (string * list ProviderMove))
    (msg : string) (script : list ProviderMove) (ctx : SupportContext) :
  is_exit msg = true ->
  main_loop (pre ++ (msg, script) :: rest) ctx = main_loop pre ctx
  /\ main_loop ((msg, script) :: rest) ctx = ([], ctx).
Proof.
  intros Hexit. split.
  - revert ctx. induction pre as [| [m sc] pre IH]; intros ctx; cbn [app main_loop].
    + rewrite Hexit. reflexivity.
    + destruct (is_exit m); [reflexivity |].
      unfold bind. destruct (handle_message m sc ctx) as [r ctx'].
      destruct (outcome r); try reflexivity.
      rewrite IH. reflexivity.
  - cbn [main_loop]. rewrite Hexit. reflexivity.
Qed.

(** X9.  One run per message, in the order typed: the runs of a session
    are the runs of an initial stretch of the messages, none of them an
    exit word, each started at the triage agent on the message's own text
    and on the context with [issue_type] reset.  In particular there are
    never more runs than messages. *)
Theorem one_run_per_message (inputs : list (string * list ProviderMove))
    (ctx : SupportContext) :
  exists n,
    fst (main_loop inputs ctx)
    = map (fun m => run_loop main_tools (fst m) triage_agent (snd m)
                      (set_issue_type None ctx))
          (firstn n inputs)
    /\ Forall (fun m => is_exit (fst m) = false) (firstn n inputs)
    /\ length (fst (main_loop inputs ctx)) <= length inputs.
Proof.
  enough (H : exists n,
             fst (main_loop inputs ctx)
             = map (fun m => run_loop main_tools (fst m) triage_agent (snd m)
                               (set_issue_type None ctx))
                   (firstn n inputs)
             /\ Forall (fun m => is_exit (fst m) = false) (firstn n inputs)).
  { destruct H as (n & Hruns & Hexit). exists n. repeat split; auto.
    rewrite Hruns, length_map, length_firstn. lia. }
  revert ctx. induction inputs as [| [msg script] rest IH]; intros ctx.
  - exists 0. split; [reflexivity | constructor].
  - cbn [main_loop]. destruct (is_exit msg) eqn:Hexit.
    + exists 0. split; [reflexivity | constructor].
    + unfold bind. rewrite handle_message_eq.
      destruct (run_context_fixed msg (set_issue_type None ctx) script triage_agent
                  triage_is_responder) as [Hafter _].
      set (r := run_loop main_tools msg triage_agent script (set_issue_type None ctx)) in *.
      destruct (outcome r);
        try (exists 1; split; [reflexivity | repeat constructor; exact Hexit]).
      rewrite Hafter.
      destruct (IH (set_issue_type None ctx)) as (n & Hruns & Hn).
      destruct (main_loop rest (set_issue_type None ctx)) as [results ctx'].
      cbn [fst ret] in *. exists (S n). split.
      * cbn [firstn map fst snd]. rewrite Hruns. reflexivity.
      * cbn [firstn]. constructor; [exact Hexit | exact Hn].
Qed.

Lemma lstrip_blanks (n fuel : nat) :
  n <= fuel -> lstrip_with whitespace fuel (blanks n) = "".
Proof.
  revert fuel. induction n as [| n IH]; intros [| fuel] Hle; try reflexivity; [lia |].
  cbn [blanks lstrip_with]. change (drop_first whitespace (String " " (blanks n)))
    with (Some (blanks n)).
  apply IH. lia.
Qed.

Lemma blanks_length (n : nat) : String.length (blanks n) = n.
Proof.
  induction n as [| n IH]; cbn [blanks String.length]; congruence.
Qed.

Lemma strip_blanks (n : nat) : strip (blanks n) = "".
Proof.
  unfold strip, lstrip. rewrite blanks_length, lstrip_blanks by lia. reflexivity.
Qed.

(** X10.  The context of a session is fixed when it is built.  Its name
    is the typed name with the white space at both ends stripped, or
    [User] when nothing is left, as for a name of blanks only; so it is
    never empty.  The context is that same value, with
    [issue_type = None], at every invocation of every request, after every
    run and at the end of the session. *)
Theorem session_context_is_fixed (name_answer premium_answer : string)
    (inputs : list (string * list ProviderMove)) :
  let ctx0 := SupportContext_new (session_name name_answer) (answers_yes premium_answer) in
  session_name name_answer <> ""
  /\ (strip name_answer <> "" -> session_name name_answer = strip name_answer)
  /\ (strip name_answer = "" -> session_name name_answer = "User")
  /\ (forall n, session_name (blanks n) = "User")
  /\ snd (main name_answer premium_answer inputs) = ctx0
  /\ Forall (fun r => context_after r = ctx0
                      /\ Forall (fun i => inv_context i = ctx0) (invocations r))
            (fst (main name_answer premium_answer inputs)).
Proof.
  intros ctx0. repeat apply conj.
  - unfold session_name.
    destruct (String.eqb_spec (strip name_answer) ""); [discriminate | assumption].
  - unfold session_name. intros Hne.
    destruct (String.eqb_spec (strip name_answer) ""); [contradiction | reflexivity].
  - unfold session_name. intros ->. reflexivity.
  - intros n. unfold session_name. rewrite strip_blanks. reflexivity.
  - change (main name_answer premium_answer inputs) with (main_loop inputs ctx0).
    destruct (main_loop_spec inputs ctx0) as [[-> | ->] _]; reflexivity.
  - change (main name_answer premium_answer inputs) with (main_loop inputs ctx0).
    destruct (main_loop_spec inputs ctx0) as [_ Hruns].
    eapply Forall_impl; [| exact Hruns].
    intros r (msg & script & ->).
    apply (run_context_fixed msg ctx0 script triage_agent triage_is_responder).
Qed.

(** X11.  When the answer to the premium question is not a yes, no
    request of the session offers [refund] at any invocation and the
    session never executes it. *)
Theorem refund_stays_out_without_a_yes (name_answer premium_answer : string)
    (inputs : list (string * list ProviderMove)) :
  answers_yes premium_answer = false ->
  Forall (fun r =>
            Forall (fun i => is_enabled refund (inv_context i) = false
                             /\ ~ In (tool_name refund) (inv_tools i)) (invocations r)
            /\ ~ In (tool_name refund) (map fst (tool_calls r)))
         (fst (main name_answer premium_answer inputs)).
Proof.
  intros Hno.
  set (ctx0 := SupportContext_new (session_name name_answer) (answers_yes premium_answer)).
  change (main name_answer premium_answer inputs) with (main_loop inputs ctx0).
  destruct (main_loop_spec inputs ctx0) as [_ Hruns].
  eapply Forall_impl; [| exact Hruns].
  intros r (msg & script & ->).
  destruct (run_context_fixed msg (set_issue_type None ctx0) script triage_agent
              triage_is_responder) as [_ Hctx].
  pose proof (run_offers_nothing msg (set_issue_type None ctx0) script triage_agent
                triage_is_responder) as Hoff.
  split.
  - rewrite Forall_forall in *. intros i Hi. split.
    + rewrite (Hctx i Hi). exact Hno.
    + rewrite (Hoff i Hi). intros [].
  - rewrite run_calls_nothing by apply triage_is_responder. intros [].
Qed.

End System.

(** * Concrete runs *)

Lemma refund_gate_follows_premium_flag_witness :
  is_enabled refund bo = false
  /\ (let r := fst (handle_message never_apology "refund please" billing_script bo) in
      Forall (fun i => inv_agent i = agent_name (billing_agent never_apology) ->
                       ~ In (tool_name refund) (inv_tools i)) (invocations r)
      /\ Forall (fun i => ~ In (tool_name refund) (inv_tools i)) (invocations r)
      /\ ~ In (tool_name refund) (map fst (tool_calls r))).
Proof.
  split; [reflexivity |].
  apply (proj2 (refund_gate_follows_premium_flag never_apology bo "refund please"
                  billing_script)).
  reflexivity.
Defined.



Lemma tripwire_is_has_apology_witness :
  passed (fst (no_apology_guardrail never_apology "Billing Agent"
                 {| response := "Your invoice is attached." |} bo)) = true.
Proof.
  pose proof (tripwire_is_has_apology never_apology "Billing Agent"
                {| response := "Your invoice is attached." |} bo) as H.
  destruct (no_apology_guardrail never_apology "Billing Agent"
              {| response := "Your invoice is attached." |} bo) as [verdict ctx'] eqn:Hg.
  destruct H as (Hinfo & _ & _ & Hiff & _).
  cbn [fst]. apply Hiff. rewrite Hinfo. reflexivity.
Defined.

(** ** Concrete instances of the further properties *)

Lemma premium_answer_starts_with_y_witness : answers_yes "Yes please" = true.
Proof.
  apply (proj2 (premium_answer_starts_with_y "Yes please")).
  exists "es please". right. reflexivity.
Defined.

Lemma exit_words_witness : is_exit "QuIt" = true /\ String.length "QuIt" = 4.
Proof.
  destruct (exit_words "QuIt") as (Hiff & _ & Hlen).
  assert (H : is_exit "QuIt" = true) by (apply Hiff; right; reflexivity).
  split; [exact H | exact (Hlen H)].
Defined.

Lemma payloads_depend_on_name_only_witness :
  fst (on_invoke refund ana)
  = fst (on_invoke refund (set_issue_type (Some "technical") ana)).
Proof.
  apply (proj1 (payloads_depend_on_name_only ana (set_issue_type (Some "technical") ana))).
  reflexivity.
Defined.

Lemma exit_ends_the_session_witness :
  main_loop never_apology
    ([("refund please", billing_script)] ++ ("Exit", []) :: [("one more", billing_script)])
    bo
  = main_loop never_apology [("refund please", billing_script)] bo.
Proof.
  apply (exit_ends_the_session never_apology [("refund please", billing_script)]
           [("one more", billing_script)] "Exit" [] bo).
  reflexivity.
Defined.

Lemma session_context_is_fixed_witness :
  session_name " Ana " = "Ana" /\ session_name "   " = "User".
Proof.
  split.
  - apply (session_context_is_fixed never_apology " Ana " "y" []). discriminate.
  - apply (session_context_is_fixed never_apology "   " "y" []). reflexivity.
Defined.

Lemma refund_stays_out_without_a_yes_witness :
  Forall (fun r =>
            Forall (fun i => is_enabled refund (inv_context i) = false
                             /\ ~ In (tool_name refund) (inv_tools i)) (invocations r)
            /\ ~ In (tool_name refund) (map fst (tool_calls r)))
         (fst (main never_apology "Bo" "no"
                 [("refund please",
                   [Call "transfer_to_billing_agent"; Call "refund";
                    FinalOutput "Refund started."])])).
Proof.
  apply (refund_stays_out_without_a_yes never_apology "Bo" "no").
  reflexivity.
Defined.
